(** * The OpenAI-to-CLI adapter ([src/adapter/openai-to-cli.ts])

    A shallow embedding of [extractModel], [extractText], [messagesToPrompt]
    and [openaiToCli], and the properties of the translation that the
    specification states about them. *)

From Stdlib Require Import List String Ascii Arith NArith Bool Lia.
Import ListNotations.

Set Implicit Arguments.

(** ** JavaScript strings

    A JavaScript string is a finite sequence of UTF-16 code units.  A code
    unit is a number below 65536; nothing below depends on the bound, so a
    string is a list of [N].  [str] reads an ASCII literal. *)

Module Js.

Definition jsstring : Type := list N.

Definition str (s : string) : jsstring :=
  map N_of_ascii (list_ascii_of_string s).

(** Strict equality [===] on two strings. *)
Fixpoint eqb (a b : jsstring) : bool :=
  match a, b with
  | [], [] => true
  | x :: a', y :: b' => N.eqb x y && eqb a' b'
  | _, _ => false
  end.

(** [ToBoolean] of a string: only the empty string is falsy. *)
Definition truthy_string (s : jsstring) : bool :=
  match s with
  | [] => false
  | _ :: _ => true
  end.

Definition nl : jsstring := [10%N].

(** [Array.prototype.join] on an array of strings. *)
Fixpoint join (sep : jsstring) (parts : list jsstring) : jsstring :=
  match parts with
  | [] => []
  | [p] => p
  | p :: rest => p ++ sep ++ join sep rest
  end.

(** [s.replace(/^p/, "")] for a literal [p]: the match is anchored at the
    start, so at most the leading occurrence goes. *)
Fixpoint strip_prefix (p s : jsstring) : option jsstring :=
  match p, s with
  | [], _ => Some s
  | x :: p', y :: s' => if N.eqb x y then strip_prefix p' s' else None
  | _ :: _, [] => None
  end.

Definition replace_prefix (p s : jsstring) : jsstring :=
  match strip_prefix p s with
  | Some rest => rest
  | None => s
  end.

(** The code units [String.prototype.trim] removes: ECMAScript's WhiteSpace
    (TAB, VT, FF, ZWNBSP and the Unicode space separators) and
    LineTerminator (LF, CR, LS, PS). *)
Definition is_white_space (c : N) : bool :=
  existsb (N.eqb c)
    [9; 11; 12; 32; 160; 5760; 8239; 8287; 12288; 65279; 10; 13; 8232; 8233]%N
  || ((8192 <=? c) && (c <=? 8202))%N.

Fixpoint trimStart (s : jsstring) : jsstring :=
  match s with
  | [] => []
  | c :: s' => if is_white_space c then trimStart s' else s
  end.

Definition trimEnd (s : jsstring) : jsstring := rev (trimStart (rev s)).

Definition trim (s : jsstring) : jsstring := trimEnd (trimStart s).

End Js.

Import Js.

(** ** Model resolver *)

Inductive ClaudeModel : Type := opus | sonnet | haiku.

(** The string each member of the union type stands for. *)
Definition model_string (m : ClaudeModel) : jsstring :=
  match m with
  | opus => str "opus"
  | sonnet => str "sonnet"
  | haiku => str "haiku"
  end.

(** The own properties of the object literal [MODEL_MAP], in source order. *)
Definition MODEL_MAP : list (jsstring * ClaudeModel) :=
  [ (str "claude-opus-4", opus);
    (str "claude-sonnet-4", sonnet);
    (str "claude-haiku-4", haiku);
    (str "claude-code-cli/claude-opus-4", opus);
    (str "claude-code-cli/claude-sonnet-4", sonnet);
    (str "claude-code-cli/claude-haiku-4", haiku);
    (str "opus", opus);
    (str "sonnet", sonnet);
    (str "haiku", haiku) ].

(** [MODEL_MAP] is written as an object literal, so its prototype is
    [Object.prototype], and [MODEL_MAP[key]] is a property read that walks
    the prototype chain.  These are the property names of
    [Object.prototype]. *)
Definition Object_prototype : list jsstring :=
  map str
    [ "constructor"; "hasOwnProperty"; "isPrototypeOf";
      "propertyIsEnumerable"; "toLocaleString"; "toString"; "valueOf";
      "__proto__"; "__defineGetter__"; "__defineSetter__";
      "__lookupGetter__"; "__lookupSetter__" ]%string.

(** What a property read on [MODEL_MAP] can evaluate to: [undefined], one
    of the three strings of the table, or the member that
    [Object.prototype] holds under [name] (a function; for [__proto__] the
    prototype object itself). *)
Inductive Value : Type :=
  | undefined
  | model_name (m : ClaudeModel)
  | inherited (name : jsstring).

Fixpoint own_property (o : list (jsstring * ClaudeModel)) (key : jsstring)
  : option ClaudeModel :=
  match o with
  | [] => None
  | (k, v) :: o' => if eqb k key then Some v else own_property o' key
  end.

(** [MODEL_MAP[key]] *)
Definition get (o : list (jsstring * ClaudeModel)) (key : jsstring) : Value :=
  match own_property o key with
  | Some m => model_name m
  | None => if existsb (eqb key) Object_prototype then inherited key
            else undefined
  end.

Definition ToBoolean (v : Value) : bool :=
  match v with
  | undefined => false
  | model_name m => truthy_string (model_string m)
  | inherited _ => true
  end.

Definition provider_prefix : jsstring := str "claude-code-cli/".

(** [extractModel], with the value it returns at run time: the declared
    return type is [ClaudeModel], and the function returns whatever the
    property read produced. *)
Definition extractModel (model : jsstring) : Value :=
  if ToBoolean (get MODEL_MAP model) then get MODEL_MAP model
  else
    let stripped := replace_prefix provider_prefix model in
    if ToBoolean (get MODEL_MAP stripped) then get MODEL_MAP stripped
    else model_name opus.

(** The resolver in the specification's words: a lookup in the nine-entry
    table, a second lookup after stripping the prefix, then the default. *)
Definition table_lookup (key : jsstring) : option ClaudeModel :=
  own_property MODEL_MAP key.

Definition two_stage_lookup (model : jsstring) : ClaudeModel :=
  match table_lookup model with
  | Some m => m
  | None =>
      match table_lookup (replace_prefix provider_prefix model) with
      | Some m => m
      | None => opus
      end
  end.

Definition is_prototype_name (key : jsstring) : bool :=
  existsb (eqb key) Object_prototype.

(** ** Message flattener *)

(** [{ type: string; text?: string }] *)
Record ContentBlock : Type := { type : jsstring; text : option jsstring }.

(** A content value that is neither a string nor an array, the shape the
    last line of [extractText] is written for.  A number is given by its
    rendering (what [Number.prototype.toString] prints for it); [JObject]
    is an ordinary object, with [Object.prototype.toString]. *)
Inductive Other : Type :=
  | JNull
  | JUndefined
  | JBoolean (b : bool)
  | JNumber (rendering : jsstring)
  | JObject.

(** [String(v)] *)
Definition ToString (v : Other) : jsstring :=
  match v with
  | JNull => str "null"
  | JUndefined => str "undefined"
  | JBoolean true => str "true"
  | JBoolean false => str "false"
  | JNumber rendering => rendering
  | JObject => str "[object Object]"
  end.

Inductive Content : Type :=
  | CString (s : jsstring)
  | CArray (blocks : list ContentBlock)
  | COther (v : Other).

(** A message.  The declared roles are "system", "user" and "assistant";
    the switch compares the role as a string, so any string is a role. *)
Record ChatMessage : Type := { role : jsstring; content : Content }.

(** The callback of [filter]: [block.type === "text" && block.text]. *)
Definition is_text_block (block : ContentBlock) : bool :=
  eqb (type block) (str "text") &&
  match text block with
  | Some t => truthy_string t
  | None => false
  end.

(** [join] on an array whose elements may be [undefined]: such an element
    contributes the empty string. *)
Definition join_elements (sep : jsstring) (xs : list (option jsstring))
  : jsstring :=
  join sep (map (fun x => match x with Some s => s | None => [] end) xs).

Definition extractText (c : Content) : jsstring :=
  match c with
  | CString s => s
  | CArray blocks => join_elements nl (map text (filter is_text_block blocks))
  | COther v => ToString v
  end.

(** The two arrays the loop of [messagesToPrompt] fills. *)
Record Parts : Type :=
  { systemParts : list jsstring; promptParts : list jsstring }.

Definition push (xs : list jsstring) (x : jsstring) : list jsstring :=
  xs ++ [x].

(** The template literal of the "assistant" case. *)
Definition previous_response (t : jsstring) : jsstring :=
  str "<previous_response>" ++ nl ++ t ++ nl ++
  str "</previous_response>" ++ nl.

(** One iteration of the loop body. *)
Definition loop_body (acc : Parts) (msg : ChatMessage) : Parts :=
  let t := extractText (content msg) in
  if eqb (role msg) (str "system") then
    {| systemParts := push (systemParts acc) t;
       promptParts := promptParts acc |}
  else if eqb (role msg) (str "user") then
    {| systemParts := systemParts acc;
       promptParts := push (promptParts acc) t |}
  else if eqb (role msg) (str "assistant") then
    {| systemParts := systemParts acc;
       promptParts := push (promptParts acc) (previous_response t) |}
  else acc.

Definition collect (messages : list ChatMessage) : Parts :=
  fold_left loop_body messages {| systemParts := []; promptParts := [] |}.

(** The result of [messagesToPrompt]; [None] is [null]. *)
Record Flattened : Type :=
  { prompt : jsstring; systemPrompt : option jsstring }.

Definition messagesToPrompt (messages : list ChatMessage) : Flattened :=
  let acc := collect messages in
  {| prompt := trim (join nl (promptParts acc));
     systemPrompt :=
       if (0 <? List.length (systemParts acc))%nat
       then Some (join (nl ++ nl) (systemParts acc))
       else None |}.

(** ** Adapter *)

(** Modelled from the spec: the type [OpenAIChatRequest] is declared in
    [types/openai.ts], which is not among the sources.  The specification
    gives the request a [model] string, an ordered sequence of [messages]
    and an optional [user] string; [others] holds every further field the
    request carries, as name and value text. *)
Module OpenAIChatRequest.
Record t : Type :=
  { model : jsstring;
    messages : list ChatMessage;
    user : option jsstring;
    others : list (jsstring * jsstring) }.
End OpenAIChatRequest.

(** [CliInput].  [model] holds the value [extractModel] returned;
    [sessionId] is [None] when the property is [undefined]. *)
Module CliInput.
Record t : Type :=
  { prompt : jsstring;
    systemPrompt : option jsstring;
    model : Value;
    sessionId : option jsstring }.
End CliInput.

Definition openaiToCli (request : OpenAIChatRequest.t) : CliInput.t :=
  let r := messagesToPrompt (OpenAIChatRequest.messages request) in
  {| CliInput.prompt := prompt r;
     CliInput.systemPrompt := systemPrompt r;
     CliInput.model := extractModel (OpenAIChatRequest.model request);
     CliInput.sessionId := OpenAIChatRequest.user request |}.

(** ** The flattener in the specification's words *)

(** The text values of the blocks whose type is "text" and whose text is
    present and non-empty, in sequence order. *)
Fixpoint selected_texts (blocks : list ContentBlock) : list jsstring :=
  match blocks with
  | [] => []
  | b :: rest =>
      match text b with
      | Some (c :: t) =>
          if eqb (type b) (str "text") then (c :: t) :: selected_texts rest
          else selected_texts rest
      | _ => selected_texts rest
      end
  end.

Definition has_role (r : string) (msg : ChatMessage) : bool :=
  eqb (role msg) (str r).

(** The extracted texts of the system-role messages, in input order. *)
Definition system_texts (messages : list ChatMessage) : list jsstring :=
  map (fun m => extractText (content m)) (filter (has_role "system") messages).

(** What a message adds to the prompt parts. *)
Definition prompt_part (msg : ChatMessage) : option jsstring :=
  if has_role "user" msg then Some (extractText (content msg))
  else if has_role "assistant" msg
       then Some (previous_response (extractText (content msg)))
       else None.

Fixpoint prompt_texts (messages : list ChatMessage) : list jsstring :=
  match messages with
  | [] => []
  | m :: rest =>
      match prompt_part m with
      | Some p => p :: prompt_texts rest
      | None => prompt_texts rest
      end
  end.

(** A role the switch has a case for. *)
Definition known_role (msg : ChatMessage) : bool :=
  has_role "system" msg || has_role "user" msg || has_role "assistant" msg.

Definition msg (r : string) (c : Content) : ChatMessage :=
  {| role := str r; content := c |}.

(** The part an empty-text message adds to the prompt parts: the two tags
    around an empty line for an assistant message, the empty string for a
    user message. *)
Definition empty_text_part (m : ChatMessage) : jsstring :=
  if has_role "assistant" m
  then str "<previous_response>" ++ nl ++ nl ++
       str "</previous_response>" ++ nl
  else [].

(** ** Sample inputs *)

Definition request_streaming : OpenAIChatRequest.t :=
  {| OpenAIChatRequest.model := str "sonnet";
     OpenAIChatRequest.messages := [ msg "user" (CString (str "hi")) ];
     OpenAIChatRequest.user := Some (str "session-1");
     OpenAIChatRequest.others := [ (str "stream", str "true") ] |}.

Definition request_with_temperature : OpenAIChatRequest.t :=
  {| OpenAIChatRequest.model := str "sonnet";
     OpenAIChatRequest.messages := [ msg "user" (CString (str "hi")) ];
     OpenAIChatRequest.user := Some (str "session-1");
     OpenAIChatRequest.others := [ (str "temperature", str "0.2") ] |}.

Definition user_a : ChatMessage := msg "user" (CString (str "a")).

Definition assistant_empty : ChatMessage := msg "assistant" (CArray []).

Definition user_b : ChatMessage := msg "user" (CString (str "b")).

(** Whether a message leaves the prompt blank: a message of another role
    always does, a user message when its text is white space only, an
    assistant message never. *)
Definition blank_for_prompt (m : ChatMessage) : bool :=
  if has_role "assistant" m then false
  else if has_role "user" m
       then forallb is_white_space (extractText (content m))
       else true.

(** How two optional system prompts combine when one conversation follows
    another. *)
Definition join_system_prompts (a b : option jsstring) : option jsstring :=
  match a, b with
  | Some x, Some y => Some (x ++ (nl ++ nl) ++ y)
  | Some x, None => Some x
  | None, _ => b
  end.

(** ** Values outside the declared types

    The parameter types of [extractText] and [messagesToPrompt] are not
    checked when the code runs: a content can be any value.  [Dyn] embeds
    the same two functions over such values, with the [TypeError] that a
    step can throw. *)

Module Dyn.

(** How the evaluation of an expression ends: with a value, or with a
    thrown [TypeError]. *)
Inductive Completion (A : Type) : Type :=
  | Normal (a : A)
  | Throw.

Arguments Throw {A}.

Definition bind {A B : Type} (c : Completion A) (k : A -> Completion B)
  : Completion B :=
  match c with
  | Normal a => k a
  | Throw => Throw
  end.

(** The values of a parsed request body.  A number is given by its
    rendering; an object is an ordinary object (its prototype is
    [Object.prototype]) given by its own properties, the first entry of a
    name being the property. *)
#[local] Set Warnings "-register-all".

Inductive JsValue : Type :=
  | VUndefined
  | VNull
  | VBoolean (b : bool)
  | VNumber (rendering : jsstring)
  | VString (s : jsstring)
  | VArray (elements : list JsValue)
  | VObject (properties : list (jsstring * JsValue)).

Fixpoint own (properties : list (jsstring * JsValue)) (key : jsstring)
  : option JsValue :=
  match properties with
  | [] => None
  | (k, v) :: rest => if eqb k key then Some v else own rest key
  end.

(** [v.key] for a [key] that no built-in prototype holds, as "type" and
    "text": reading a property of [undefined] or [null] throws, an object
    gives its own property, every other value gives [undefined]. *)
Definition Get (v : JsValue) (key : jsstring) : Completion JsValue :=
  match v with
  | VUndefined | VNull => Throw
  | VObject properties =>
      Normal (match own properties key with
              | Some x => x
              | None => VUndefined
              end)
  | _ => Normal VUndefined
  end.

(** The numbers [0], [-0] and [NaN] are falsy; they print as "0" and
    "NaN". *)
Definition ToBoolean (v : JsValue) : bool :=
  match v with
  | VUndefined | VNull => false
  | VBoolean b => b
  | VNumber rendering =>
      negb (eqb rendering (str "0") || eqb rendering (str "NaN"))
  | VString s => truthy_string s
  | VArray _ | VObject _ => true
  end.

Definition comma : jsstring := str ",".

(** [String(v)].  An array prints its elements joined by commas, through
    [Array.prototype.toString].  An object without an own "toString"
    prints through [Object.prototype.toString]; with an own "toString",
    which is no function here, the conversion falls back on "valueOf",
    gets no primitive value from it, and throws. *)
Fixpoint ToString (v : JsValue) : Completion jsstring :=
  match v with
  | VUndefined => Normal (str "undefined")
  | VNull => Normal (str "null")
  | VBoolean true => Normal (str "true")
  | VBoolean false => Normal (str "false")
  | VNumber rendering => Normal rendering
  | VString s => Normal s
  | VArray elements =>
      (fix joined (l : list JsValue) : Completion jsstring :=
         match l with
         | [] => Normal []
         | e :: rest =>
             bind (match e with
                   | VUndefined | VNull => Normal []
                   | _ => ToString e
                   end)
                  (fun s =>
                     match rest with
                     | [] => Normal s
                     | _ :: _ =>
                         bind (joined rest)
                              (fun r => Normal (s ++ comma ++ r))
                     end)
         end) elements
  | VObject properties =>
      match own properties (str "toString") with
      | Some _ => Throw
      | None => Normal (str "[object Object]")
      end
  end.

(** What [join] makes of one element. *)
Definition element_string (e : JsValue) : Completion jsstring :=
  match e with
  | VUndefined | VNull => Normal []
  | _ => ToString e
  end.

(** [xs.join(sep)] *)
Fixpoint join_values (sep : jsstring) (xs : list JsValue)
  : Completion jsstring :=
  match xs with
  | [] => Normal []
  | e :: rest =>
      bind (element_string e)
           (fun s =>
              match rest with
              | [] => Normal s
              | _ :: _ =>
                  bind (join_values sep rest)
                       (fun r => Normal (s ++ sep ++ r))
              end)
  end.

(** The callback of [filter]: [block.type === "text" && block.text]. *)
Definition is_text_block (block : JsValue) : Completion JsValue :=
  bind (Get block (str "type"))
       (fun t =>
          match t with
          | VString s =>
              if eqb s (str "text") then Get block (str "text")
              else Normal (VBoolean false)
          | _ => Normal (VBoolean false)
          end).

(** [content.filter(...)]: the callback runs on every element in turn. *)
Fixpoint filter_blocks (elements : list JsValue)
  : Completion (list JsValue) :=
  match elements with
  | [] => Normal []
  | block :: rest =>
      bind (is_text_block block)
           (fun keep =>
              bind (filter_blocks rest)
                   (fun kept =>
                      Normal (if ToBoolean keep then block :: kept
                              else kept)))
  end.

(** [.map(block => block.text)] *)
Fixpoint map_text (blocks : list JsValue) : Completion (list JsValue) :=
  match blocks with
  | [] => Normal []
  | block :: rest =>
      bind (Get block (str "text"))
           (fun t => bind (map_text rest) (fun ts => Normal (t :: ts)))
  end.

Definition extractText (content : JsValue) : Completion jsstring :=
  match content with
  | VString s => Normal s
  | VArray elements =>
      bind (filter_blocks elements)
           (fun kept => bind (map_text kept) (join_values nl))
  | _ => ToString content
  end.

Record ChatMessage : Type := { role : jsstring; content : JsValue }.

(** The [switch] of the loop body, on the role and the extracted text. *)
Definition switch_role (acc : Parts) (r t : jsstring) : Parts :=
  if eqb r (str "system") then
    {| systemParts := push (systemParts acc) t;
       promptParts := promptParts acc |}
  else if eqb r (str "user") then
    {| systemParts := systemParts acc;
       promptParts := push (promptParts acc) t |}
  else if eqb r (str "assistant") then
    {| systemParts := systemParts acc;
       promptParts := push (promptParts acc) (previous_response t) |}
  else acc.

(** The loop: [extractText] runs on every message, before the [switch]
    looks at the role, and a throw ends the call. *)
Fixpoint loop (messages : list ChatMessage) (acc : Parts)
  : Completion Parts :=
  match messages with
  | [] => Normal acc
  | m :: rest =>
      bind (extractText (content m))
           (fun t => loop rest (switch_role acc (role m) t))
  end.

Definition messagesToPrompt (messages : list ChatMessage)
  : Completion Flattened :=
  bind (loop messages {| systemParts := []; promptParts := [] |})
       (fun acc =>
          Normal
            {| prompt := trim (join nl (promptParts acc));
               systemPrompt :=
                 if (0 <? List.length (systemParts acc))%nat
                 then Some (join (nl ++ nl) (systemParts acc))
                 else None |}).

Definition known_role (m : ChatMessage) : bool :=
  eqb (role m) (str "system") || eqb (role m) (str "user") ||
  eqb (role m) (str "assistant").

(** Whether [extractText] returns on the content of a message. *)
Definition extracts (m : ChatMessage) : bool :=
  match extractText (content m) with
  | Normal _ => true
  | Throw => false
  end.

Definition message (r : string) (c : JsValue) : ChatMessage :=
  {| role := str r; content := c |}.

End Dyn.

(** The values of the declared types, as values. *)
Definition of_block (b : ContentBlock) : Dyn.JsValue :=
  Dyn.VObject ((str "type", Dyn.VString (type b)) ::
               match text b with
               | Some t => [(str "text", Dyn.VString t)]
               | None => []
               end).

(** What [block.text] reads on a block of the declared type. *)
Definition text_value (b : ContentBlock) : Dyn.JsValue :=
  match text b with
  | Some t => Dyn.VString t
  | None => Dyn.VUndefined
  end.

Definition of_other (v : Other) : Dyn.JsValue :=
  match v with
  | JNull => Dyn.VNull
  | JUndefined => Dyn.VUndefined
  | JBoolean b => Dyn.VBoolean b
  | JNumber rendering => Dyn.VNumber rendering
  | JObject => Dyn.VObject []
  end.

Definition of_content (c : Content) : Dyn.JsValue :=
  match c with
  | CString s => Dyn.VString s
  | CArray blocks => Dyn.VArray (map of_block blocks)
  | COther v => of_other v
  end.

Definition of_message (m : ChatMessage) : Dyn.ChatMessage :=
  {| Dyn.role := role m; Dyn.content := of_content (content m) |}.

(** ** The state of [Object.prototype]

    [Object.prototype] is an object every part of the program can write
    to, and a read [MODEL_MAP[key]] that finds no own property reads it.
    [Realm] embeds [extractModel] and [openaiToCli] with the properties
    the program has assigned to [Object.prototype] by the time of the
    call: the name and the value of each, the latest assignment first. *)

Module Realm.

Definition Assigned : Type := list (jsstring * Dyn.JsValue).

(** What [MODEL_MAP[key]] evaluates to: a value of the untouched
    prototype chain, as [get] gives it, or an assigned value. *)
Inductive Read : Type :=
  | standard (v : Value)
  | assigned (v : Dyn.JsValue).

(** [MODEL_MAP[key]]: the own property, else the property assigned to
    [Object.prototype], else the built-in member of that name. *)
Definition get (realm : Assigned) (o : list (jsstring * ClaudeModel))
           (key : jsstring) : Read :=
  match own_property o key with
  | Some m => standard (model_name m)
  | None =>
      match Dyn.own realm key with
      | Some v => assigned v
      | None => standard (get o key)
      end
  end.

Definition ToBoolean (r : Read) : bool :=
  match r with
  | standard v => ToBoolean v
  | assigned v => Dyn.ToBoolean v
  end.

Definition extractModel (realm : Assigned) (model : jsstring) : Read :=
  if ToBoolean (get realm MODEL_MAP model) then get realm MODEL_MAP model
  else
    let stripped := replace_prefix provider_prefix model in
    if ToBoolean (get realm MODEL_MAP stripped)
    then get realm MODEL_MAP stripped
    else standard (model_name opus).

Module CliInput.
Record t : Type :=
  { prompt : jsstring;
    systemPrompt : option jsstring;
    model : Read;
    sessionId : option jsstring }.
End CliInput.

Definition openaiToCli (realm : Assigned) (request : OpenAIChatRequest.t)
  : CliInput.t :=
  let r := messagesToPrompt (OpenAIChatRequest.messages request) in
  {| CliInput.prompt := prompt r;
     CliInput.systemPrompt := systemPrompt r;
     CliInput.model := extractModel realm (OpenAIChatRequest.model request);
     CliInput.sessionId := OpenAIChatRequest.user request |}.

End Realm.



(** A message of the role "tool" whose content is the array [[null]], a
    user message, and a tool message with a string content. *)
Definition tool_null : Dyn.ChatMessage :=
  Dyn.message "tool" (Dyn.VArray [Dyn.VNull]).

Definition user_u : Dyn.ChatMessage :=
  Dyn.message "user" (Dyn.VString (str "u")).

(** ** Strings: equality, join, trim *)

Lemma str_eqb_eq (a b : jsstring) : eqb a b = true <-> a = b.
Proof.
  revert b; induction a as [|x a IH]; intros [|y b]; simpl;
    try (split; [discriminate | discriminate]); try tauto.
  rewrite andb_true_iff, N.eqb_eq, IH.
  split; [intros [-> ->]; reflexivity | intros E; injection E; auto].
Qed.

Lemma join_cons (sep p : jsstring) (q : jsstring) (rest : list jsstring) :
  join sep (p :: q :: rest) = p ++ sep ++ join sep (q :: rest).
Proof. reflexivity. Qed.

Lemma join_app (sep : jsstring) (xs ys : list jsstring) :
  xs <> [] -> ys <> [] ->
  join sep (xs ++ ys) = join sep xs ++ sep ++ join sep ys.
Proof.
  intros Hx Hy. induction xs as [|x xs IH]; [congruence|].
  destruct xs as [|x' xs].
  - destruct ys as [|y ys]; [congruence | reflexivity].
  - change ((x :: x' :: xs) ++ ys) with (x :: x' :: (xs ++ ys)).
    rewrite !join_cons.
    change (x' :: xs ++ ys) with ((x' :: xs) ++ ys).
    rewrite IH by discriminate.
    now rewrite <- !app_assoc.
Qed.

(** A join is empty only for no part at all or a single empty part, as
    soon as the separator is not empty. *)
Lemma join_nil_inv (sep : jsstring) (xs : list jsstring) :
  sep <> [] -> join sep xs = [] -> xs = [] \/ xs = [[]].
Proof.
  intros Hs E. destruct xs as [|x [|y ys]]; auto.
  - simpl in E; subst; auto.
  - rewrite join_cons in E.
    apply app_eq_nil in E as [_ E]. apply app_eq_nil in E as [E _].
    contradiction.
Qed.

Lemma trimStart_app (a b : jsstring) :
  trimStart a <> [] -> trimStart (a ++ b) = trimStart a ++ b.
Proof.
  induction a as [|c a IH]; simpl; [congruence|].
  destruct (is_white_space c); auto.
Qed.

Lemma trimEnd_app (a b : jsstring) :
  trimEnd b <> [] -> trimEnd (a ++ b) = a ++ trimEnd b.
Proof.
  unfold trimEnd; intros H.
  rewrite rev_app_distr, trimStart_app, rev_app_distr, rev_involutive; auto.
  intros E; apply H; rewrite E; reflexivity.
Qed.

Lemma trimStart_nil_trim (a : jsstring) : trimStart a = [] -> trim a = [].
Proof. unfold trim; intros ->; reflexivity. Qed.

Lemma trimStart_all_space (a : jsstring) :
  trimStart a = [] <-> forallb is_white_space a = true.
Proof.
  induction a as [|c a IH]; simpl; [tauto|].
  destruct (is_white_space c); simpl; [exact IH|].
  split; discriminate.
Qed.

Lemma trimEnd_nil_trim (a : jsstring) : trimEnd a = [] -> trim a = [].
Proof.
  intros E. apply trimStart_nil_trim, trimStart_all_space.
  unfold trimEnd in E.
  assert (E' : trimStart (rev a) = []).
  { rewrite <- (rev_involutive (trimStart (rev a))), E; reflexivity. }
  apply trimStart_all_space in E'.
  rewrite forallb_forall in *.
  intros x Hx; apply E', in_rev; rewrite rev_involutive; exact Hx.
Qed.

(** Trimming leaves the middle of a string alone when text that survives
    trimming stands on both sides of it. *)
Lemma trim_middle (a m b : jsstring) :
  trim a <> [] -> trim b <> [] ->
  trim (a ++ m ++ b) = trimStart a ++ m ++ trimEnd b.
Proof.
  intros Ha Hb. unfold trim at 1.
  rewrite trimStart_app by (intros E; apply Ha, trimStart_nil_trim, E).
  rewrite app_assoc, trimEnd_app, <- app_assoc; auto.
  intros E; apply Hb, trimEnd_nil_trim, E.
Qed.


(** ** The loop of [messagesToPrompt] *)

Lemma role_cases (m : ChatMessage) :
  (has_role "system" m = true /\ has_role "user" m = false
     /\ has_role "assistant" m = false) \/
  (has_role "system" m = false /\ has_role "user" m = true
     /\ has_role "assistant" m = false) \/
  (has_role "system" m = false /\ has_role "user" m = false
     /\ has_role "assistant" m = true) \/
  (has_role "system" m = false /\ has_role "user" m = false
     /\ has_role "assistant" m = false).
Proof.
  unfold has_role.
  destruct (eqb (role m) (str "system")) eqn:Es.
  { apply str_eqb_eq in Es; rewrite Es; left; repeat split; reflexivity. }
  destruct (eqb (role m) (str "user")) eqn:Eu.
  { apply str_eqb_eq in Eu; rewrite Eu; right; left; repeat split;
      reflexivity. }
  destruct (eqb (role m) (str "assistant")); tauto.
Qed.

Ltac by_role m :=
  let H := fresh "H" in
  destruct (role_cases m) as [H|[H|[H|H]]];
  destruct H as (?Hs & ?Hu & ?Ha).

(** The loop body appends to the two arrays what the message contributes
    to each, and leaves what they already hold in place. *)
Lemma loop_body_spec (acc : Parts) (m : ChatMessage) :
  loop_body acc m =
  {| systemParts := systemParts acc ++ system_texts [m];
     promptParts := promptParts acc ++ prompt_texts [m] |}.
Proof.
  unfold loop_body, system_texts, prompt_texts, prompt_part, push; simpl.
  by_role m; unfold has_role in *; rewrite ?Hs, ?Hu, ?Ha; simpl;
    rewrite ?app_nil_r; destruct acc; reflexivity.
Qed.

Lemma system_texts_app (xs ys : list ChatMessage) :
  system_texts (xs ++ ys) = system_texts xs ++ system_texts ys.
Proof. unfold system_texts; now rewrite filter_app, map_app. Qed.

Lemma prompt_texts_app (xs ys : list ChatMessage) :
  prompt_texts (xs ++ ys) = prompt_texts xs ++ prompt_texts ys.
Proof.
  induction xs as [|x xs IH]; simpl; [reflexivity|].
  destruct (prompt_part x); simpl; now rewrite IH.
Qed.

Lemma fold_loop_body (messages : list ChatMessage) (acc : Parts) :
  fold_left loop_body messages acc =
  {| systemParts := systemParts acc ++ system_texts messages;
     promptParts := promptParts acc ++ prompt_texts messages |}.
Proof.
  revert acc; induction messages as [|m messages IH]; intros acc.
  - simpl. rewrite !app_nil_r. destruct acc; reflexivity.
  - simpl fold_left. rewrite IH, loop_body_spec. simpl systemParts.
    simpl promptParts. rewrite <- !app_assoc.
    change (m :: messages) with ([m] ++ messages).
    now rewrite system_texts_app, prompt_texts_app.
Qed.

Lemma collect_spec (messages : list ChatMessage) :
  collect messages =
  {| systemParts := system_texts messages;
     promptParts := prompt_texts messages |}.
Proof. unfold collect; now rewrite fold_loop_body. Qed.

Lemma system_texts_known (messages : list ChatMessage) :
  system_texts (filter known_role messages) = system_texts messages.
Proof.
  induction messages as [|m messages IH]; [reflexivity|].
  change (m :: messages) with ([m] ++ messages).
  rewrite filter_app, !system_texts_app, IH. f_equal.
  unfold system_texts, known_role; simpl.
  by_role m; rewrite Hs, Hu, Ha; simpl; rewrite ?Hs; reflexivity.
Qed.

Lemma prompt_texts_known (messages : list ChatMessage) :
  prompt_texts (filter known_role messages) = prompt_texts messages.
Proof.
  induction messages as [|m messages IH]; [reflexivity|].
  change (m :: messages) with ([m] ++ messages).
  rewrite filter_app, !prompt_texts_app, IH. f_equal.
  unfold known_role, prompt_part; simpl.
  by_role m; rewrite Hs, Hu, Ha; simpl; unfold prompt_part;
    rewrite ?Hu, ?Ha; reflexivity.
Qed.

Lemma system_texts_nil (messages : list ChatMessage) :
  existsb (has_role "system") messages = false ->
  system_texts messages = [].
Proof.
  unfold system_texts. induction messages as [|m messages IH]; simpl; auto.
  destruct (has_role "system" m); simpl; [discriminate | auto].
Qed.

Lemma system_texts_cons (messages : list ChatMessage) :
  existsb (has_role "system") messages = true ->
  system_texts messages <> [].
Proof.
  unfold system_texts. induction messages as [|m messages IH]; simpl.
  - discriminate.
  - destruct (has_role "system" m); simpl; [discriminate | auto].
Qed.

(** ** Text extraction *)

Lemma selected_texts_spec (blocks : list ContentBlock) :
  map (fun x => match x with Some s => s | None => [] end)
      (map text (filter is_text_block blocks))
  = selected_texts blocks.
Proof.
  induction blocks as [|b blocks IH]; [reflexivity|].
  simpl filter. simpl selected_texts. unfold is_text_block at 1.
  destruct (text b) as [[|c t]|] eqn:Et; simpl truthy_string;
    rewrite ?andb_false_r, ?andb_true_r; auto.
  destruct (eqb (type b) (str "text")); auto.
  simpl map. now rewrite Et, IH.
Qed.

(** ** Model resolution *)

Lemma get_own (key : jsstring) (m : ClaudeModel) :
  table_lookup key = Some m -> get MODEL_MAP key = model_name m.
Proof. unfold table_lookup, get; intros ->; reflexivity. Qed.

Lemma get_missing (key : jsstring) :
  table_lookup key = None -> is_prototype_name key = false ->
  get MODEL_MAP key = undefined.
Proof.
  unfold table_lookup, get, is_prototype_name; intros -> ->; reflexivity.
Qed.

Lemma model_name_truthy (m : ClaudeModel) : ToBoolean (model_name m) = true.
Proof. destruct m; reflexivity. Qed.

(** Away from the property names of [Object.prototype], [extractModel] is
    the two-stage lookup and returns a tier. *)
Lemma extractModel_two_stage (model : jsstring) :
  is_prototype_name model = false ->
  is_prototype_name (replace_prefix provider_prefix model) = false ->
  extractModel model = model_name (two_stage_lookup model).
Proof.
  intros H1 H2. unfold extractModel, two_stage_lookup.
  destruct (table_lookup model) as [m|] eqn:E1.
  - now rewrite (@get_own _ _ E1), model_name_truthy.
  - rewrite (@get_missing _ E1 H1); simpl.
    destruct (table_lookup (replace_prefix provider_prefix model))
      as [m|] eqn:E2.
    + now rewrite (@get_own _ _ E2), model_name_truthy.
    + now rewrite (@get_missing _ E2 H2).
Qed.

Lemma extractModel_examples :
  extractModel (str "claude-sonnet-4") = model_name sonnet /\
  extractModel (str "claude-code-cli/claude-haiku-4") = model_name haiku /\
  extractModel (str "gpt-4") = model_name opus /\
  extractModel (str "opus") = model_name opus.
Proof. repeat split; reflexivity. Qed.

(** * The claims *)

(** C1.  The claim is that [extractModel] returns one of "opus", "sonnet"
    and "haiku" for every input string.  The code does not: for the input
    "constructor" the read [MODEL_MAP[model]] finds the member that
    [Object.prototype] holds under that name, the test succeeds, and
    [extractModel] returns that member, which is none of the three tiers. *)
Theorem extractModel_constructor_not_a_tier :
  extractModel (str "constructor") = inherited (str "constructor") /\
  forall m : ClaudeModel, extractModel (str "constructor") <> model_name m.
Proof. split; [reflexivity | intros m; discriminate]. Qed.

(** C4.  The claim is that [extractModel] is a two-stage lookup in the
    fixed table with default "opus".  On "claude-code-cli/toString" the
    first read finds nothing, the prefix is stripped, and the second read
    finds [Object.prototype.toString]: the code returns it where the table
    lookup of the claim ends in the default. *)
Theorem extractModel_stripped_not_two_stage :
  extractModel (str "claude-code-cli/toString") = inherited (str "toString") /\
  two_stage_lookup (str "claude-code-cli/toString") = opus.
Proof. split; reflexivity. Qed.

(** C2, the claim as stated fails: one system message with empty text gives
    the empty string as [systemPrompt], not [null]. *)
Lemma systemPrompt_empty_string :
  systemPrompt (messagesToPrompt [msg "system" (CString (str ""))])
  = Some (str "").
Proof. reflexivity. Qed.

(** C2, amended.  [systemPrompt] is [null] exactly when no message has the
    role "system", and it is the empty string exactly when the system
    texts are one single empty text; in every other case it is a non-empty
    string. *)
Theorem systemPrompt_null_or_empty_iff (messages : list ChatMessage) :
  (systemPrompt (messagesToPrompt messages) = None <->
   existsb (has_role "system") messages = false) /\
  (systemPrompt (messagesToPrompt messages) = Some [] <->
   system_texts messages = [[]]).
Proof.
  unfold messagesToPrompt. rewrite collect_spec.
  cbn [systemPrompt systemParts].
  destruct (existsb (has_role "system") messages) eqn:E.
  - pose proof (@system_texts_cons _ E) as Hne.
    assert (Hlen : (0 <? List.length (system_texts messages))%nat = true)
      by (destruct (system_texts messages); [congruence | reflexivity]).
    rewrite Hlen. split; split; try discriminate.
    + intros H; injection H as H.
      apply join_nil_inv in H; [|discriminate].
      destruct H as [H|H]; [congruence | exact H].
    + intros ->; reflexivity.
  - rewrite (@system_texts_nil _ E). simpl. split; split;
      auto; discriminate.
Qed.

(** C3.  The prompt parts are, in input order, the text of each user
    message and the text of each assistant message between the literal
    tags; the prompt is these parts joined by a newline and trimmed.  For
    user "hi", assistant "hello", user "more" the prompt is the string the
    specification gives. *)
Theorem prompt_is_trimmed_join_of_parts :
  (forall messages : list ChatMessage,
     promptParts (collect messages) = prompt_texts messages /\
     prompt (messagesToPrompt messages)
     = trim (join nl (prompt_texts messages))) /\
  (forall c : Content,
     prompt_part (msg "user" c) = Some (extractText c) /\
     prompt_part (msg "assistant" c)
     = Some (str "<previous_response>" ++ nl ++ extractText c ++ nl ++
             str "</previous_response>" ++ nl)) /\
  prompt (messagesToPrompt
            [ msg "user" (CString (str "hi"));
              msg "assistant" (CString (str "hello"));
              msg "user" (CString (str "more")) ])
  = str "hi" ++ nl ++ str "<previous_response>" ++ nl ++ str "hello" ++ nl ++
    str "</previous_response>" ++ nl ++ nl ++ str "more".
Proof.
  split; [|split; [|reflexivity]].
  - intros messages. unfold messagesToPrompt. rewrite collect_spec.
    split; reflexivity.
  - intros c; split; reflexivity.
Qed.

(** C5.  When some message has the role "system", [systemPrompt] is the
    extracted texts of the system messages, in input order, joined by two
    newlines; otherwise it is [null].  Two system messages "A" and "B"
    give "A\n\nB", and a lone user message gives [null]. *)
Theorem systemPrompt_is_joined_system_texts :
  (forall messages : list ChatMessage,
     systemPrompt (messagesToPrompt messages)
     = if existsb (has_role "system") messages
       then Some (join (nl ++ nl) (system_texts messages))
       else None) /\
  systemPrompt (messagesToPrompt
                  [ msg "system" (CString (str "A"));
                    msg "system" (CString (str "B")) ])
  = Some (str "A" ++ nl ++ nl ++ str "B") /\
  systemPrompt (messagesToPrompt [ msg "user" (CString (str "hi")) ]) = None.
Proof.
  split; [|split; reflexivity].
  intros messages. unfold messagesToPrompt. rewrite collect_spec.
  cbn [systemPrompt systemParts].
  destruct (existsb (has_role "system") messages) eqn:E.
  - pose proof (@system_texts_cons _ E) as Hne.
    destruct (system_texts messages); [congruence | reflexivity].
  - now rewrite (@system_texts_nil _ E).
Qed.

(** On the declared content type, [extractText] returns a string content
    as it is; for an array of blocks, the texts of the blocks of type
    "text" with a present, non-empty text, in order, joined by a newline;
    for the fallback values, their string conversion.  The blocks text
    "a", image "ignored", text "b" give "a\nb". *)
Theorem extractText_by_shape :
  (forall s : jsstring, extractText (CString s) = s) /\
  (forall blocks : list ContentBlock,
     extractText (CArray blocks) = join nl (selected_texts blocks)) /\
  (forall v : Other, extractText (COther v) = ToString v) /\
  extractText
    (CArray [ {| type := str "text"; text := Some (str "a") |};
              {| type := str "image"; text := Some (str "ignored") |};
              {| type := str "text"; text := Some (str "b") |} ])
  = str "a" ++ nl ++ str "b".
Proof.
  repeat split.
  intros blocks. unfold extractText, join_elements.
  now rewrite selected_texts_spec.
Qed.

(** On the declared content type, messages whose role is none of
    "system", "user", "assistant" change nothing: [messagesToPrompt]
    returns the same record on the sequence with those messages removed. *)
Theorem messagesToPrompt_ignores_other_roles (messages : list ChatMessage) :
  messagesToPrompt messages = messagesToPrompt (filter known_role messages).
Proof.
  unfold messagesToPrompt. rewrite !collect_spec.
  cbn [systemParts promptParts].
  now rewrite system_texts_known, prompt_texts_known.
Qed.

(** C8.  [sessionId] is the request's [user] field, unchanged: the same
    string when it is present, absent when it is absent. *)
Theorem sessionId_is_user (request : OpenAIChatRequest.t) :
  CliInput.sessionId (openaiToCli request) = OpenAIChatRequest.user request.
Proof. reflexivity. Qed.

(** With [Object.prototype] untouched, two requests with the same
    [messages], [model] and [user] give the same [CliInput], whatever
    their other fields hold. *)
Theorem openaiToCli_reads_three_fields (r1 r2 : OpenAIChatRequest.t) :
  OpenAIChatRequest.messages r1 = OpenAIChatRequest.messages r2 ->
  OpenAIChatRequest.model r1 = OpenAIChatRequest.model r2 ->
  OpenAIChatRequest.user r1 = OpenAIChatRequest.user r2 ->
  openaiToCli r1 = openaiToCli r2.
Proof. unfold openaiToCli; intros -> -> ->; reflexivity. Qed.

(** Two requests that differ in their other fields only. *)
Lemma openaiToCli_reads_three_fields_witness :
  request_streaming <> request_with_temperature /\
  OpenAIChatRequest.messages request_streaming
  = OpenAIChatRequest.messages request_with_temperature /\
  OpenAIChatRequest.model request_streaming
  = OpenAIChatRequest.model request_with_temperature /\
  OpenAIChatRequest.user request_streaming
  = OpenAIChatRequest.user request_with_temperature /\
  openaiToCli request_streaming = openaiToCli request_with_temperature.
Proof.
  refine (conj _ (conj eq_refl (conj eq_refl (conj eq_refl _)))).
  - discriminate.
  - exact (@openaiToCli_reads_three_fields
             request_streaming request_with_temperature
             eq_refl eq_refl eq_refl).
Defined.

Lemma prompt_texts_insert (pre post : list ChatMessage) (m : ChatMessage)
      (part : jsstring) :
  prompt_part m = Some part ->
  prompt_texts (pre ++ m :: post)
  = prompt_texts pre ++ part :: prompt_texts post.
Proof. intros E. rewrite prompt_texts_app; simpl; now rewrite E. Qed.

Lemma join_insert (sep part : jsstring) (xs ys : list jsstring) :
  xs <> [] -> ys <> [] ->
  join sep (xs ++ part :: ys)
  = join sep xs ++ (sep ++ part ++ sep) ++ join sep ys.
Proof.
  intros Hx Hy. rewrite join_app by (auto; discriminate).
  destruct ys as [|y ys]; [congruence|].
  rewrite join_cons. now rewrite <- !app_assoc.
Qed.

(** C10.  A user or assistant message with empty text is not skipped.  It
    adds a part of its own between the parts of the messages before and
    after it: the empty string for a user message, the two tags around an
    empty line for an assistant message.  When the messages on both sides
    give a non-empty prompt, that part and the newlines joining it stand
    unchanged in the trimmed prompt. *)
Theorem empty_text_message_keeps_its_part
        (pre post : list ChatMessage) (m : ChatMessage) :
  has_role "user" m = true \/ has_role "assistant" m = true ->
  extractText (content m) = [] ->
  promptParts (collect (pre ++ m :: post))
  = promptParts (collect pre) ++ empty_text_part m :: promptParts (collect post)
  /\
  (prompt (messagesToPrompt pre) <> [] ->
   prompt (messagesToPrompt post) <> [] ->
   prompt (messagesToPrompt (pre ++ m :: post))
   = trimStart (join nl (promptParts (collect pre))) ++
     (nl ++ empty_text_part m ++ nl) ++
     trimEnd (join nl (promptParts (collect post)))).
Proof.
  intros Hrole Htext. set (part := empty_text_part m).
  assert (Hpart : prompt_part m = Some part).
  { unfold prompt_part, part, empty_text_part. rewrite Htext.
    by_role m; rewrite ?Hu, ?Ha; try reflexivity;
      destruct Hrole; congruence. }
  unfold messagesToPrompt. rewrite !collect_spec.
  cbn [prompt promptParts].
  rewrite (@prompt_texts_insert pre post m part Hpart).
  split; [reflexivity|].
  intros Hpre Hpost.
  assert (Hx : prompt_texts pre <> [])
    by (intros E; apply Hpre; rewrite E; reflexivity).
  assert (Hy : prompt_texts post <> [])
    by (intros E; apply Hpost; rewrite E; reflexivity).
  rewrite join_insert by assumption.
  now apply trim_middle.
Qed.

(** User "a", an assistant message with no text, user "b". *)
Lemma empty_text_message_keeps_its_part_witness :
  (has_role "user" assistant_empty = true \/
   has_role "assistant" assistant_empty = true) /\
  extractText (content assistant_empty) = [] /\
  prompt (messagesToPrompt [user_a]) <> [] /\
  prompt (messagesToPrompt [user_b]) <> [] /\
  prompt (messagesToPrompt ([user_a] ++ assistant_empty :: [user_b]))
  = str "a" ++ nl ++ str "<previous_response>" ++ nl ++ nl ++
    str "</previous_response>" ++ nl ++ nl ++ str "b".
Proof.
  assert (Hrole : has_role "user" assistant_empty = true \/
                  has_role "assistant" assistant_empty = true)
    by (right; reflexivity).
  assert (Htext : extractText (content assistant_empty) = [])
    by reflexivity.
  assert (Hpre : prompt (messagesToPrompt [user_a]) <> []) by discriminate.
  assert (Hpost : prompt (messagesToPrompt [user_b]) <> []) by discriminate.
  refine (conj Hrole (conj Htext (conj Hpre (conj Hpost _)))).
  exact (proj2 (@empty_text_message_keeps_its_part
                  [user_a] [user_b] assistant_empty Hrole Htext)
               Hpre Hpost).
Defined.

(** * Further properties of the code *)

(** ** [extractModel] *)

Lemma existsb_eqb_In (key : jsstring) (names : list jsstring) :
  existsb (eqb key) names = true -> In key names.
Proof.
  intros H. apply existsb_exists in H as (x & Hx & E).
  apply str_eqb_eq in E; subst; exact Hx.
Qed.

Lemma own_property_In (o : list (jsstring * ClaudeModel)) (key : jsstring)
      (m : ClaudeModel) :
  own_property o key = Some m -> In (key, m) o.
Proof.
  induction o as [|[k v] o IH]; simpl; [discriminate|].
  destruct (eqb k key) eqn:E.
  - apply str_eqb_eq in E. intros H; injection H as ->; subst; auto.
  - auto.
Qed.

Lemma eqb_app_l (p a b : jsstring) : eqb (p ++ a) (p ++ b) = eqb a b.
Proof. induction p as [|x p IH]; simpl; [|rewrite N.eqb_refl]; auto. Qed.

Lemma strip_prefix_app (p s : jsstring) : strip_prefix p (p ++ s) = Some s.
Proof. induction p as [|x p IH]; simpl; [|rewrite N.eqb_refl]; auto. Qed.

Lemma replace_prefix_app (p s : jsstring) : replace_prefix p (p ++ s) = s.
Proof. unfold replace_prefix; now rewrite strip_prefix_app. Qed.

(** Behind the provider prefix the table holds the three full names and
    nothing else, and [Object.prototype] holds no name. *)
Lemma get_prefixed (s : jsstring) :
  get MODEL_MAP (provider_prefix ++ s) =
  if eqb (str "claude-opus-4") s then model_name opus
  else if eqb (str "claude-sonnet-4") s then model_name sonnet
  else if eqb (str "claude-haiku-4") s then model_name haiku
  else undefined.
Proof.
  unfold get, MODEL_MAP. cbn [own_property].
  change (str "claude-code-cli/claude-opus-4")
    with (provider_prefix ++ str "claude-opus-4").
  change (str "claude-code-cli/claude-sonnet-4")
    with (provider_prefix ++ str "claude-sonnet-4").
  change (str "claude-code-cli/claude-haiku-4")
    with (provider_prefix ++ str "claude-haiku-4").
  rewrite !eqb_app_l.
  change (eqb (str "claude-opus-4") (provider_prefix ++ s)) with false.
  change (eqb (str "claude-sonnet-4") (provider_prefix ++ s)) with false.
  change (eqb (str "claude-haiku-4") (provider_prefix ++ s)) with false.
  change (eqb (str "opus") (provider_prefix ++ s)) with false.
  change (eqb (str "sonnet") (provider_prefix ++ s)) with false.
  change (eqb (str "haiku") (provider_prefix ++ s)) with false.
  change (existsb (eqb (provider_prefix ++ s)) Object_prototype) with false.
  cbv iota.
  destruct (eqb (str "claude-opus-4") s); [reflexivity|].
  destruct (eqb (str "claude-sonnet-4") s); [reflexivity|].
  destruct (eqb (str "claude-haiku-4") s); reflexivity.
Qed.

(** X1.  [extractModel] never returns [undefined], nor any other falsy
    value: whatever the input, the value it returns passes the test
    [if (...)]. *)
Theorem extractModel_truthy (model : jsstring) :
  extractModel model <> undefined /\ ToBoolean (extractModel model) = true.
Proof.
  assert (H : ToBoolean (extractModel model) = true).
  { unfold extractModel.
    destruct (ToBoolean (get MODEL_MAP model)) eqn:E1; [exact E1|].
    cbv zeta.
    destruct (ToBoolean (get MODEL_MAP (replace_prefix provider_prefix model)))
      eqn:E2; [exact E2 | reflexivity]. }
  split; [|exact H].
  intros E; rewrite E in H; discriminate.
Qed.

(** X2.  [extractModel] returns one of the three tiers exactly when
    neither the input nor the input without the provider prefix is a
    property name of [Object.prototype]. *)
Theorem extractModel_tier_iff (model : jsstring) :
  (exists m : ClaudeModel, extractModel model = model_name m) <->
  is_prototype_name model = false /\
  is_prototype_name (replace_prefix provider_prefix model) = false.
Proof.
  split.
  - intros [m Hm].
    destruct (is_prototype_name model) eqn:P1.
    { exfalso. apply existsb_eqb_In in P1. simpl in P1.
      repeat (destruct P1 as [P1|P1];
              [rewrite <- P1 in Hm; vm_compute in Hm; discriminate|]).
      exact P1. }
    split; [reflexivity|].
    destruct (is_prototype_name (replace_prefix provider_prefix model)) eqn:P2;
      [exfalso | reflexivity].
    destruct (table_lookup model) as [m'|] eqn:T.
    + apply own_property_In in T. simpl in T.
      repeat (destruct T as [T|T];
              [injection T as T _; rewrite <- T in P2; vm_compute in P2;
               discriminate|]).
      exact T.
    + unfold extractModel in Hm.
      rewrite (@get_missing _ T P1) in Hm. cbn [ToBoolean] in Hm.
      cbv zeta in Hm.
      apply existsb_eqb_In in P2. simpl in P2.
      repeat (destruct P2 as [P2|P2];
              [rewrite <- P2 in Hm; vm_compute in Hm; discriminate|]).
      exact P2.
  - intros [P1 P2]. exists (two_stage_lookup model).
    now apply extractModel_two_stage.
Qed.

(** X3.  Every name written in [MODEL_MAP] resolves to the tier written
    beside it, and does so with the provider prefix put in front as well. *)
Theorem extractModel_table_entry (key : jsstring) (m : ClaudeModel) :
  In (key, m) MODEL_MAP ->
  extractModel key = model_name m /\
  extractModel (provider_prefix ++ key) = model_name m.
Proof.
  intros H. simpl in H.
  repeat (destruct H as [H|H];
          [injection H as <- <-; split; reflexivity|]).
  contradiction.
Qed.

Lemma extractModel_table_entry_witness :
  In (str "sonnet", sonnet) MODEL_MAP /\
  extractModel (str "sonnet") = model_name sonnet /\
  extractModel (provider_prefix ++ str "sonnet") = model_name sonnet.
Proof.
  assert (H : In (str "sonnet", sonnet) MODEL_MAP)
    by (simpl; do 7 right; left; reflexivity).
  exact (conj H (@extractModel_table_entry (str "sonnet") sonnet H)).
Defined.

(** X4.  The provider prefix is stripped once.  An input that starts with
    the prefix resolves as a single read of [MODEL_MAP] under the rest of
    the input, with "opus" when that read finds nothing; a further prefix
    in the rest is not stripped. *)
Theorem extractModel_prefixed (s : jsstring) :
  extractModel (provider_prefix ++ s) =
  if ToBoolean (get MODEL_MAP s) then get MODEL_MAP s else model_name opus.
Proof.
  unfold extractModel. rewrite replace_prefix_app, get_prefixed. cbv zeta.
  destruct (eqb (str "claude-opus-4") s) eqn:E1.
  { apply str_eqb_eq in E1; subst; reflexivity. }
  destruct (eqb (str "claude-sonnet-4") s) eqn:E2.
  { apply str_eqb_eq in E2; subst; reflexivity. }
  destruct (eqb (str "claude-haiku-4") s) eqn:E3.
  { apply str_eqb_eq in E3; subst; reflexivity. }
  reflexivity.
Qed.

(** ** [extractText] *)

Lemma extractText_array (blocks : list ContentBlock) :
  extractText (CArray blocks) = join nl (selected_texts blocks).
Proof. unfold extractText, join_elements; now rewrite selected_texts_spec. Qed.

Lemma selected_texts_filter (blocks : list ContentBlock) :
  selected_texts blocks
  = map (fun b => match text b with Some t => t | None => [] end)
        (filter is_text_block blocks).
Proof. now rewrite <- selected_texts_spec, map_map. Qed.

Lemma selected_texts_app (xs ys : list ContentBlock) :
  selected_texts (xs ++ ys) = selected_texts xs ++ selected_texts ys.
Proof. now rewrite !selected_texts_filter, filter_app, map_app. Qed.

Lemma selected_texts_nil_iff (blocks : list ContentBlock) :
  selected_texts blocks = [] <-> existsb is_text_block blocks = false.
Proof.
  rewrite selected_texts_filter.
  induction blocks as [|b blocks IH]; simpl; [tauto|].
  destruct (is_text_block b); simpl; [|exact IH].
  split; discriminate.
Qed.

Lemma selected_texts_nonempty (blocks : list ContentBlock) :
  Forall (fun t => t <> []) (selected_texts blocks).
Proof.
  induction blocks as [|b blocks IH]; simpl; [constructor|].
  destruct (text b) as [[|c t]|]; auto.
  destruct (eqb (type b) (str "text")); auto.
  constructor; [discriminate | exact IH].
Qed.

Lemma join_nonempty_parts (sep : jsstring) (parts : list jsstring) :
  Forall (fun t => t <> []) parts -> join sep parts = [] -> parts = [].
Proof.
  intros F E. destruct parts as [|p [|q rest]]; auto.
  - simpl in E; subst. inversion F; congruence.
  - rewrite join_cons in E. apply app_eq_nil in E as [E _].
    inversion F; congruence.
Qed.

(** X5.  An array content flattens to the empty string exactly when it
    holds no block of type "text" with a non-empty text; with one such
    block or more the text is not empty. *)
Theorem extractText_array_empty_iff (blocks : list ContentBlock) :
  extractText (CArray blocks) = [] <-> existsb is_text_block blocks = false.
Proof.
  rewrite extractText_array, <- selected_texts_nil_iff. split.
  - apply join_nonempty_parts, selected_texts_nonempty.
  - intros ->; reflexivity.
Qed.

(** X6.  Flattening two arrays of blocks put end to end gives the two
    flattened texts with one newline between them; when one of the arrays
    holds no text block, it gives the text of the other alone, with no
    newline added. *)
Theorem extractText_array_app (xs ys : list ContentBlock) :
  extractText (CArray (xs ++ ys)) =
  if existsb is_text_block xs
  then if existsb is_text_block ys
       then extractText (CArray xs) ++ nl ++ extractText (CArray ys)
       else extractText (CArray xs)
  else extractText (CArray ys).
Proof.
  rewrite !extractText_array, selected_texts_app.
  destruct (existsb is_text_block xs) eqn:Ex.
  - destruct (existsb is_text_block ys) eqn:Ey.
    + apply join_app; intros E; apply selected_texts_nil_iff in E; congruence.
    + apply selected_texts_nil_iff in Ey. now rewrite Ey, app_nil_r.
  - apply selected_texts_nil_iff in Ex. now rewrite Ex.
Qed.

(** ** Trimming *)

Lemma trimStart_split (s : jsstring) :
  exists w, s = w ++ trimStart s /\ forallb is_white_space w = true.
Proof.
  induction s as [|c s (w & E & W)]; simpl.
  - exists []; auto.
  - destruct (is_white_space c) eqn:C.
    + exists (c :: w); simpl; rewrite C, W; split; [now f_equal | reflexivity].
    + exists []; auto.
Qed.

Lemma trimStart_head (s : jsstring) (c : N) (rest : jsstring) :
  trimStart s = c :: rest -> is_white_space c = false.
Proof.
  induction s as [|x s IH]; simpl; [discriminate|].
  destruct (is_white_space x) eqn:X; auto.
  intros E; injection E as -> _; exact X.
Qed.

Lemma trimEnd_split (s : jsstring) :
  exists w, s = trimEnd s ++ w /\ forallb is_white_space w = true.
Proof.
  destruct (trimStart_split (rev s)) as (w & E & W).
  exists (rev w). split.
  - unfold trimEnd. rewrite <- rev_app_distr, <- E. now rewrite rev_involutive.
  - rewrite forallb_forall in *. intros x Hx; apply W, in_rev, Hx.
Qed.

Lemma trimEnd_last (s init : jsstring) (c : N) :
  trimEnd s = init ++ [c] -> is_white_space c = false.
Proof.
  unfold trimEnd; intros E.
  apply (f_equal (@rev N)) in E.
  rewrite rev_involutive, rev_app_distr in E; simpl in E.
  exact (trimStart_head _ E).
Qed.

Lemma trim_head (s : jsstring) (c : N) (rest : jsstring) :
  trim s = c :: rest -> is_white_space c = false.
Proof.
  unfold trim; intros E.
  destruct (trimEnd_split (trimStart s)) as (w & Hs & _).
  rewrite E in Hs. exact (trimStart_head s Hs).
Qed.

Lemma trim_last (s init : jsstring) (c : N) :
  trim s = init ++ [c] -> is_white_space c = false.
Proof. unfold trim; apply trimEnd_last. Qed.

Lemma trim_nil_iff (s : jsstring) :
  trim s = [] <-> forallb is_white_space s = true.
Proof.
  split.
  - intros E. unfold trim in E.
    destruct (trimStart_split s) as (w1 & E1 & W1).
    destruct (trimEnd_split (trimStart s)) as (w2 & E2 & W2).
    rewrite E in E2; simpl in E2. rewrite E2 in E1. rewrite E1.
    rewrite forallb_app, W1, W2; reflexivity.
  - intros W. apply trimStart_nil_trim, trimStart_all_space, W.
Qed.

Lemma forallb_join (f : N -> bool) (sep : jsstring) (parts : list jsstring) :
  forallb f sep = true ->
  forallb f (join sep parts) = forallb (forallb f) parts.
Proof.
  intros S. induction parts as [|p [|q rest] IH]; [reflexivity | |].
  - simpl; now rewrite andb_true_r.
  - rewrite join_cons, !forallb_app, S, IH. reflexivity.
Qed.

(** ** [messagesToPrompt] *)

(** X7.  The prompt carries no white space at either end: when it is not
    empty, its first and its last code unit are not white space. *)
Theorem prompt_has_no_outer_white_space (messages : list ChatMessage) :
  (forall c rest,
     prompt (messagesToPrompt messages) = c :: rest ->
     is_white_space c = false) /\
  (forall init c,
     prompt (messagesToPrompt messages) = init ++ [c] ->
     is_white_space c = false).
Proof.
  unfold messagesToPrompt; cbn [prompt]. split.
  - intros c rest; apply trim_head.
  - intros init c; apply trim_last.
Qed.

Lemma forallb_prompt_texts (messages : list ChatMessage) :
  @forallb jsstring (forallb is_white_space) (prompt_texts messages)
  = forallb blank_for_prompt messages.
Proof.
  induction messages as [|m messages IH]; [reflexivity|].
  change (m :: messages) with ([m] ++ messages).
  rewrite prompt_texts_app, !forallb_app, IH. f_equal.
  unfold prompt_texts, prompt_part, blank_for_prompt, forallb at 3.
  by_role m; rewrite Hu, Ha; reflexivity.
Qed.

(** X8.  The prompt is the empty string exactly when the messages hold no
    assistant message and every user message has a text of white space
    only (or no text); system messages and messages of other roles do not
    count. *)
Theorem prompt_empty_iff (messages : list ChatMessage) :
  prompt (messagesToPrompt messages) = [] <->
  forallb blank_for_prompt messages = true.
Proof.
  unfold messagesToPrompt. rewrite collect_spec. cbn [prompt promptParts].
  rewrite trim_nil_iff, forallb_join by reflexivity.
  now rewrite forallb_prompt_texts.
Qed.

Lemma prompt_texts_without_system (messages : list ChatMessage) :
  prompt_texts (filter (fun m => negb (has_role "system" m)) messages)
  = prompt_texts messages.
Proof.
  induction messages as [|m messages IH]; [reflexivity|].
  change (m :: messages) with ([m] ++ messages).
  rewrite filter_app, !prompt_texts_app, IH. f_equal.
  simpl. unfold prompt_part.
  by_role m; rewrite Hs; simpl; unfold prompt_part; rewrite ?Hu, ?Ha;
    reflexivity.
Qed.

Lemma system_texts_only_system (messages : list ChatMessage) :
  system_texts (filter (has_role "system") messages) = system_texts messages.
Proof.
  unfold system_texts. f_equal.
  induction messages as [|m messages IH]; [reflexivity|].
  simpl. destruct (has_role "system" m) eqn:E; simpl; rewrite ?E, IH;
    reflexivity.
Qed.

Lemma prompt_texts_only_system (messages : list ChatMessage) :
  prompt_texts (filter (has_role "system") messages) = [].
Proof.
  induction messages as [|m messages IH]; [reflexivity|].
  simpl. destruct (has_role "system" m) eqn:E; [|exact IH].
  simpl. unfold prompt_part. by_role m; try congruence.
  now rewrite Hu, Ha.
Qed.

Lemma system_texts_without_system (messages : list ChatMessage) :
  system_texts (filter (fun m => negb (has_role "system" m)) messages) = [].
Proof.
  unfold system_texts.
  induction messages as [|m messages IH]; [reflexivity|].
  simpl. destruct (has_role "system" m) eqn:E; simpl; [exact IH|].
  now rewrite E.
Qed.

(** X9.  The two outputs are kept apart.  The prompt is the same with
    every system message removed, wherever those stood between the other
    messages; the systemPrompt is the same with everything but the system
    messages removed.  The system messages alone give an empty prompt, and
    the other messages alone give no systemPrompt. *)
Theorem prompt_and_systemPrompt_are_separate (messages : list ChatMessage) :
  prompt (messagesToPrompt messages)
  = prompt (messagesToPrompt
              (filter (fun m => negb (has_role "system" m)) messages)) /\
  systemPrompt (messagesToPrompt messages)
  = systemPrompt (messagesToPrompt (filter (has_role "system") messages)) /\
  prompt (messagesToPrompt (filter (has_role "system") messages)) = [] /\
  systemPrompt
    (messagesToPrompt (filter (fun m => negb (has_role "system" m)) messages))
  = None.
Proof.
  unfold messagesToPrompt. rewrite !collect_spec.
  cbn [prompt systemPrompt promptParts systemParts].
  rewrite prompt_texts_without_system, system_texts_only_system,
    prompt_texts_only_system, system_texts_without_system.
  repeat split.
Qed.

Lemma messagesToPrompt_parts (xs ys : list ChatMessage) :
  system_texts xs = system_texts ys ->
  prompt_texts xs = prompt_texts ys ->
  messagesToPrompt xs = messagesToPrompt ys.
Proof.
  intros Hs Hp. unfold messagesToPrompt. rewrite !collect_spec.
  cbn [promptParts systemParts]. now rewrite Hs, Hp.
Qed.

(** X10.  The tags around an assistant text are plain text and nothing is
    escaped: in any conversation, an assistant message and a user message
    whose text is the assistant text between the two tags give the same
    result. *)
Theorem assistant_message_as_user_text
        (pre post : list ChatMessage) (c : Content) :
  messagesToPrompt (pre ++ msg "assistant" c :: post)
  = messagesToPrompt
      (pre ++
       msg "user"
         (CString (str "<previous_response>" ++ nl ++ extractText c ++ nl ++
                   str "</previous_response>" ++ nl)) :: post).
Proof.
  apply messagesToPrompt_parts.
  - now rewrite !system_texts_app.
  - now rewrite !prompt_texts_app.
Qed.

Lemma join_merge (sep a b : jsstring) (xs ys : list jsstring) :
  join sep (xs ++ a :: b :: ys) = join sep (xs ++ (a ++ sep ++ b) :: ys).
Proof.
  induction xs as [|x xs IH].
  - simpl app. rewrite join_cons.
    destruct ys as [|y ys]; [reflexivity|].
    rewrite !join_cons. now rewrite <- !app_assoc.
  - destruct xs as [|x' xs].
    + simpl app in *.
      etransitivity; [apply join_cons|]. symmetry.
      etransitivity; [apply join_cons|]. now rewrite IH.
    + change ((x :: x' :: xs) ++ a :: b :: ys)
        with (x :: x' :: (xs ++ a :: b :: ys)).
      change ((x :: x' :: xs) ++ (a ++ sep ++ b) :: ys)
        with (x :: x' :: (xs ++ (a ++ sep ++ b) :: ys)).
      etransitivity; [apply join_cons|]. symmetry.
      etransitivity; [apply join_cons|]. f_equal. f_equal.
      symmetry; exact IH.
Qed.

(** X11.  Message boundaries do not reach the output.  Two user messages
    in a row give the same result as one user message holding the two
    texts with a newline between them, and two system messages in a row
    the same as one holding the two texts with two newlines between them. *)
Theorem adjacent_messages_merge
        (pre post : list ChatMessage) (a b : Content) :
  messagesToPrompt (pre ++ msg "user" a :: msg "user" b :: post)
  = messagesToPrompt
      (pre ++
       msg "user" (CString (extractText a ++ nl ++ extractText b)) :: post)
  /\
  messagesToPrompt (pre ++ msg "system" a :: msg "system" b :: post)
  = messagesToPrompt
      (pre ++
       msg "system" (CString (extractText a ++ (nl ++ nl) ++ extractText b))
       :: post).
Proof.
  split; unfold messagesToPrompt; rewrite !collect_spec;
    cbn [promptParts systemParts];
    rewrite !system_texts_app, !prompt_texts_app.
  - f_equal. f_equal.
    change (prompt_texts (msg "user" a :: msg "user" b :: post))
      with (extractText a :: extractText b :: prompt_texts post).
    change (prompt_texts
              (msg "user" (CString (extractText a ++ nl ++ extractText b))
               :: post))
      with ((extractText a ++ nl ++ extractText b) :: prompt_texts post).
    apply join_merge.
  - change (system_texts (msg "system" a :: msg "system" b :: post))
      with (extractText a :: extractText b :: system_texts post).
    change (system_texts
              (msg "system"
                 (CString (extractText a ++ (nl ++ nl) ++ extractText b))
               :: post))
      with ((extractText a ++ (nl ++ nl) ++ extractText b)
            :: system_texts post).
    change (prompt_texts (msg "system" a :: msg "system" b :: post))
      with (prompt_texts post).
    change (prompt_texts
              (msg "system"
                 (CString (extractText a ++ (nl ++ nl) ++ extractText b))
               :: post))
      with (prompt_texts post).
    f_equal. rewrite !length_app. simpl List.length.
    rewrite join_merge.
    replace (0 <? List.length (system_texts pre)
                  + S (S (List.length (system_texts post))))%nat with true
      by (symmetry; apply Nat.ltb_lt; lia).
    replace (0 <? List.length (system_texts pre)
                  + S (List.length (system_texts post)))%nat with true
      by (symmetry; apply Nat.ltb_lt; lia).
    reflexivity.
Qed.

(** X12.  When one conversation follows another, the systemPrompt of the
    whole is the two systemPrompts with two newlines between them, or the
    one that is present when the other is [null], or [null] when both
    are. *)
Theorem systemPrompt_app (xs ys : list ChatMessage) :
  systemPrompt (messagesToPrompt (xs ++ ys))
  = join_system_prompts (systemPrompt (messagesToPrompt xs))
                        (systemPrompt (messagesToPrompt ys)).
Proof.
  unfold messagesToPrompt. rewrite !collect_spec.
  cbn [systemPrompt systemParts]. rewrite system_texts_app.
  destruct (system_texts xs) as [|x xs'] eqn:Ex.
  - reflexivity.
  - destruct (system_texts ys) as [|y ys'] eqn:Ey.
    + now rewrite app_nil_r.
    + change (0 <? List.length ((x :: xs') ++ y :: ys'))%nat with true.
      change (0 <? List.length (x :: xs'))%nat with true.
      change (0 <? List.length (y :: ys'))%nat with true.
      cbv iota. unfold join_system_prompts. f_equal.
      apply join_app; discriminate.
Qed.

Lemma join_cons_nonempty (sep p : jsstring) (rest : list jsstring) :
  rest <> [] -> join sep (p :: rest) = p ++ sep ++ join sep rest.
Proof. destruct rest; [congruence | reflexivity]. Qed.

Lemma join_snoc_app (sep x y : jsstring) (xs : list jsstring) :
  join sep (xs ++ [x ++ y]) = join sep (xs ++ [x]) ++ y.
Proof.
  induction xs as [|p xs IH]; [reflexivity|].
  change ((p :: xs) ++ [x ++ y]) with (p :: (xs ++ [x ++ y])).
  change ((p :: xs) ++ [x]) with (p :: (xs ++ [x])).
  rewrite !join_cons_nonempty by (destruct xs; discriminate).
  now rewrite IH, <- !app_assoc.
Qed.

Lemma trimStart_ws_prefix (w s : jsstring) :
  forallb is_white_space w = true -> trimStart (w ++ s) = trimStart s.
Proof.
  induction w as [|c w IH]; simpl; [reflexivity|].
  destruct (is_white_space c); [exact IH | discriminate].
Qed.

Lemma trimStart_snoc (s : jsstring) (c : N) :
  is_white_space c = false -> exists z, trimStart (s ++ [c]) = z ++ [c].
Proof.
  intros C. induction s as [|x s [z IH]]; simpl.
  - rewrite C. exists []; reflexivity.
  - destruct (is_white_space x).
    + exists z; exact IH.
    + exists (x :: s); reflexivity.
Qed.

(** Trimming a string that ends in white space after a last code unit
    that is none: the white space goes, the rest of the end stays. *)
Lemma trim_trailing (s w : jsstring) (c : N) :
  is_white_space c = false -> forallb is_white_space w = true ->
  trim ((s ++ [c]) ++ w) = trimStart (s ++ [c]).
Proof.
  intros C W. unfold trim.
  destruct (@trimStart_snoc s c C) as [z Z].
  rewrite trimStart_app by (rewrite Z; destruct z; discriminate).
  rewrite Z. unfold trimEnd.
  rewrite rev_app_distr, trimStart_ws_prefix.
  - rewrite rev_app_distr. simpl. rewrite C. simpl.
    now rewrite rev_involutive.
  - rewrite forallb_forall in *. intros x Hx; apply W, in_rev, Hx.
Qed.

(** X13.  When the last message is an assistant message, the newline the
    template puts after the closing tag is trimmed away: the prompt ends
    with the closing tag, and nothing else is removed at that end. *)
Theorem prompt_ends_with_closing_tag (pre : list ChatMessage) (c : Content) :
  prompt (messagesToPrompt (pre ++ [msg "assistant" c]))
  = trimStart
      (join nl
         (promptParts (collect pre) ++
          [str "<previous_response>" ++ nl ++ extractText c ++ nl ++
           str "</previous_response>"])).
Proof.
  unfold messagesToPrompt. rewrite !collect_spec.
  cbn [prompt promptParts]. rewrite prompt_texts_app.
  change (prompt_texts [msg "assistant" c])
    with [previous_response (extractText c)].
  set (body := str "<previous_response>" ++ nl ++ extractText c ++ nl ++
               str "</previous_response").
  assert (E1 : previous_response (extractText c) = (body ++ [62%N]) ++ nl).
  { unfold previous_response, body.
    change (str "</previous_response>")
      with (str "</previous_response" ++ [62%N]).
    now rewrite <- !app_assoc. }
  assert (E2 : str "<previous_response>" ++ nl ++ extractText c ++ nl ++
               str "</previous_response>" = body ++ [62%N]).
  { unfold body.
    change (str "</previous_response>")
      with (str "</previous_response" ++ [62%N]).
    now rewrite <- !app_assoc. }
  rewrite E1, E2, !join_snoc_app.
  now apply trim_trailing.
Qed.
(** * Values outside the declared types *)

Lemma is_text_block_of_block (b : ContentBlock) :
  exists keep, Dyn.is_text_block (of_block b) = Dyn.Normal keep /\
               Dyn.ToBoolean keep = is_text_block b.
Proof.
  unfold Dyn.is_text_block, is_text_block, of_block.
  cbn [Dyn.Get Dyn.own].
  change (eqb (str "type") (str "type")) with true.
  change (eqb (str "type") (str "text")) with false.
  cbn [Dyn.bind]. cbv iota.
  destruct (eqb (type b) (str "text")).
  - destruct (text b) as [t|]; cbn [Dyn.own].
    + change (eqb (str "text") (str "text")) with true. cbv iota.
      eexists; split; reflexivity.
    + eexists; split; reflexivity.
  - eexists; split; reflexivity.
Qed.

Lemma filter_blocks_of_block (blocks : list ContentBlock) :
  Dyn.filter_blocks (map of_block blocks)
  = Dyn.Normal (map of_block (filter is_text_block blocks)).
Proof.
  induction blocks as [|b blocks IH]; [reflexivity|].
  cbn [map Dyn.filter_blocks filter]. rewrite IH.
  destruct (is_text_block_of_block b) as (keep & -> & K).
  cbn [Dyn.bind]. rewrite K.
  destruct (is_text_block b); reflexivity.
Qed.

Lemma map_text_of_block (blocks : list ContentBlock) :
  Dyn.map_text (map of_block blocks) = Dyn.Normal (map text_value blocks).
Proof.
  induction blocks as [|b blocks IH]; [reflexivity|].
  cbn [map Dyn.map_text]. rewrite IH.
  unfold of_block at 1. unfold text_value at 2. cbn [Dyn.Get Dyn.own].
  change (eqb (str "type") (str "text")) with false. cbv iota.
  destruct (text b) as [t|]; cbn [Dyn.own].
  - change (eqb (str "text") (str "text")) with true. reflexivity.
  - reflexivity.
Qed.

Lemma join_values_text_value (sep : jsstring) (blocks : list ContentBlock) :
  Dyn.join_values sep (map text_value blocks)
  = Dyn.Normal (join_elements sep (map text blocks)).
Proof.
  unfold join_elements.
  induction blocks as [|b blocks IH]; [reflexivity|].
  cbn [map Dyn.join_values].
  assert (E : Dyn.element_string (text_value b)
              = Dyn.Normal (match text b with Some s => s | None => [] end))
    by (unfold text_value; destruct (text b); reflexivity).
  rewrite E. cbn [Dyn.bind].
  destruct blocks as [|b' blocks]; [reflexivity|].
  cbn [map] in *. rewrite IH. reflexivity.
Qed.

(** On a value of the declared type the two embeddings agree, and
    [extractText] returns. *)
Lemma extractText_of_content (c : Content) :
  Dyn.extractText (of_content c) = Dyn.Normal (extractText c).
Proof.
  destruct c as [s|blocks|v].
  - reflexivity.
  - cbn [of_content Dyn.extractText extractText].
    rewrite filter_blocks_of_block. cbn [Dyn.bind].
    rewrite map_text_of_block. cbn [Dyn.bind].
    apply join_values_text_value.
  - destruct v as [| |[|]| |]; reflexivity.
Qed.

Lemma switch_role_loop_body (acc : Parts) (m : ChatMessage) :
  Dyn.switch_role acc (role m) (extractText (content m)) = loop_body acc m.
Proof. reflexivity. Qed.

Lemma loop_of_message (messages : list ChatMessage) (acc : Parts) :
  Dyn.loop (map of_message messages) acc
  = Dyn.Normal (fold_left loop_body messages acc).
Proof.
  revert acc; induction messages as [|m messages IH]; intros acc;
    [reflexivity|].
  cbn [map Dyn.loop fold_left].
  unfold of_message at 1. cbn [Dyn.content Dyn.role].
  rewrite extractText_of_content. cbn [Dyn.bind].
  rewrite IH. f_equal.
Qed.

Lemma messagesToPrompt_of_message (messages : list ChatMessage) :
  Dyn.messagesToPrompt (map of_message messages)
  = Dyn.Normal (messagesToPrompt messages).
Proof.
  unfold Dyn.messagesToPrompt, messagesToPrompt, collect.
  now rewrite loop_of_message.
Qed.

Lemma filter_blocks_throw (xs ys : list Dyn.JsValue) (e : Dyn.JsValue) :
  Dyn.is_text_block e = Dyn.Throw ->
  Dyn.filter_blocks (xs ++ e :: ys) = Dyn.Throw.
Proof.
  intros E. induction xs as [|x xs IH]; cbn [app Dyn.filter_blocks].
  - now rewrite E.
  - rewrite IH. destruct (Dyn.is_text_block x); reflexivity.
Qed.

Lemma filter_blocks_skip (xs ys : list Dyn.JsValue) (e keep : Dyn.JsValue) :
  Dyn.is_text_block e = Dyn.Normal keep -> Dyn.ToBoolean keep = false ->
  Dyn.filter_blocks (xs ++ e :: ys) = Dyn.filter_blocks (xs ++ ys).
Proof.
  intros E K. induction xs as [|x xs IH]; cbn [app Dyn.filter_blocks].
  - rewrite E. cbn [Dyn.bind]. rewrite K.
    destruct (Dyn.filter_blocks ys); reflexivity.
  - now rewrite IH.
Qed.

Lemma extractText_array_throw (xs ys : list Dyn.JsValue) (e : Dyn.JsValue) :
  Dyn.is_text_block e = Dyn.Throw ->
  Dyn.extractText (Dyn.VArray (xs ++ e :: ys)) = Dyn.Throw.
Proof.
  intros E. cbn [Dyn.extractText]. now rewrite (@filter_blocks_throw xs ys e E).
Qed.

Lemma extractText_array_skip (xs ys : list Dyn.JsValue) (e : Dyn.JsValue) :
  Dyn.is_text_block e = Dyn.Normal (Dyn.VBoolean false) ->
  Dyn.extractText (Dyn.VArray (xs ++ e :: ys))
  = Dyn.extractText (Dyn.VArray (xs ++ ys)).
Proof.
  intros E. cbn [Dyn.extractText].
  now rewrite (@filter_blocks_skip xs ys e (Dyn.VBoolean false) E).
Qed.

(** C6, the claim as stated fails: on the array [[null]] the callback of
    [filter] reads [null.type], and [extractText] throws. *)
Lemma extractText_null_element_throws :
  Dyn.extractText (Dyn.VArray [Dyn.VNull]) = Dyn.Throw.
Proof. reflexivity. Qed.

(** C6, amended.  [extractText] returns a string as it is.  For an array
    of blocks of the declared type it returns the texts of the blocks of
    type "text" with a present, non-empty text, in order, joined by a
    newline; text "a", image "ignored", text "b" give "a\nb".  For a value
    that is neither a string nor an array it ends as the string conversion
    of the value ends: it returns for [null], [undefined], booleans,
    numbers and objects without a "toString" of their own, and throws for
    an object that has an own "toString" property holding no function.
    For an array with an element [null] or [undefined] it throws, wherever
    the element stands; elements that are booleans, numbers, strings or
    arrays are passed over. *)
Theorem extractText_on_every_value :
  (forall s : jsstring, Dyn.extractText (Dyn.VString s) = Dyn.Normal s) /\
  (forall blocks : list ContentBlock,
     Dyn.extractText (Dyn.VArray (map of_block blocks))
     = Dyn.Normal (join nl (selected_texts blocks))) /\
  Dyn.extractText
    (Dyn.VArray
       [ of_block {| type := str "text"; text := Some (str "a") |};
         of_block {| type := str "image"; text := Some (str "ignored") |};
         of_block {| type := str "text"; text := Some (str "b") |} ])
  = Dyn.Normal (str "a" ++ nl ++ str "b") /\
  (forall c : Dyn.JsValue,
     match c with
     | Dyn.VString _ | Dyn.VArray _ => True
     | _ => Dyn.extractText c = Dyn.ToString c
     end) /\
  (forall v : Other, Dyn.extractText (of_other v) = Dyn.Normal (ToString v)) /\
  (forall properties : list (jsstring * Dyn.JsValue),
     Dyn.extractText (Dyn.VObject properties)
     = match Dyn.own properties (str "toString") with
       | Some _ => Dyn.Throw
       | None => Dyn.Normal (str "[object Object]")
       end) /\
  (forall xs ys : list Dyn.JsValue,
     Dyn.extractText (Dyn.VArray (xs ++ Dyn.VNull :: ys)) = Dyn.Throw /\
     Dyn.extractText (Dyn.VArray (xs ++ Dyn.VUndefined :: ys)) = Dyn.Throw) /\
  (forall (xs ys : list Dyn.JsValue) (b : bool) (s : jsstring)
          (l : list Dyn.JsValue),
     Dyn.extractText (Dyn.VArray (xs ++ Dyn.VBoolean b :: ys))
     = Dyn.extractText (Dyn.VArray (xs ++ ys)) /\
     Dyn.extractText (Dyn.VArray (xs ++ Dyn.VNumber s :: ys))
     = Dyn.extractText (Dyn.VArray (xs ++ ys)) /\
     Dyn.extractText (Dyn.VArray (xs ++ Dyn.VString s :: ys))
     = Dyn.extractText (Dyn.VArray (xs ++ ys)) /\
     Dyn.extractText (Dyn.VArray (xs ++ Dyn.VArray l :: ys))
     = Dyn.extractText (Dyn.VArray (xs ++ ys))).
Proof.
  split; [reflexivity|].
  split.
  { intros blocks.
    rewrite <- extractText_array.
    exact (extractText_of_content (CArray blocks)). }
  split; [reflexivity|].
  split; [intros [| | | | | |]; exact I || reflexivity|].
  split; [intros v; exact (extractText_of_content (COther v))|].
  split; [reflexivity|].
  split.
  { intros xs ys; split; now apply extractText_array_throw. }
  intros xs ys b s l.
  repeat split; now apply extractText_array_skip.
Qed.

Lemma switch_role_unknown (acc : Parts) (m : Dyn.ChatMessage) (t : jsstring) :
  Dyn.known_role m = false -> Dyn.switch_role acc (Dyn.role m) t = acc.
Proof.
  unfold Dyn.known_role, Dyn.switch_role. intros H.
  apply orb_false_iff in H as [H Ha]. apply orb_false_iff in H as [Hs Hu].
  now rewrite Hs, Hu, Ha.
Qed.

(** The loop on a sequence and on the sequence without the messages of
    other roles: the same end when extraction returns on each of those
    messages, a throw otherwise. *)
Lemma loop_known_roles (messages : list Dyn.ChatMessage) (acc : Parts) :
  Dyn.loop messages acc =
  if forallb (fun m => Dyn.known_role m || Dyn.extracts m) messages
  then Dyn.loop (filter Dyn.known_role messages) acc
  else Dyn.Throw.
Proof.
  revert acc; induction messages as [|m messages IH]; intros acc;
    [reflexivity|].
  cbn [forallb filter Dyn.loop].
  destruct (Dyn.known_role m) eqn:K; cbn [orb andb Dyn.loop].
  - destruct (Dyn.extractText (Dyn.content m)) as [t|]; cbn [Dyn.bind].
    + rewrite IH.
      destruct (forallb _ messages); reflexivity.
    + destruct (forallb _ messages); reflexivity.
  - unfold Dyn.extracts at 1.
    destruct (Dyn.extractText (Dyn.content m)) as [t|]; cbn [Dyn.bind andb].
    + rewrite (switch_role_unknown acc m t K). apply IH.
    + reflexivity.
Qed.

(** C7, the claim as stated fails: the content of a message is extracted
    before its role is looked at, so a message of the role "tool" with
    the content [[null]] makes the call throw, while the call on the
    sequence without that message returns. *)
Lemma messagesToPrompt_ignored_message_throws :
  Dyn.messagesToPrompt [tool_null; user_u] = Dyn.Throw /\
  Dyn.messagesToPrompt (filter Dyn.known_role [tool_null; user_u])
  = Dyn.Normal {| prompt := str "u"; systemPrompt := None |}.
Proof. split; reflexivity. Qed.

(** C7, amended.  Messages whose role is none of "system", "user",
    "assistant" add nothing to the result, but their content is extracted
    like that of any message.  When extraction returns on the content of
    each of them, [messagesToPrompt] ends as it does on the sequence with
    those messages removed: with the same record, or with a throw on both.
    When extraction throws on the content of one of them, the call
    throws.  On messages whose contents have the declared type the call
    returns the record of the sequence with those messages removed. *)
Theorem messagesToPrompt_other_roles_extracted :
  (forall messages : list Dyn.ChatMessage,
     Dyn.messagesToPrompt messages =
     if forallb (fun m => Dyn.known_role m || Dyn.extracts m) messages
     then Dyn.messagesToPrompt (filter Dyn.known_role messages)
     else Dyn.Throw) /\
  (forall messages : list ChatMessage,
     Dyn.messagesToPrompt (map of_message messages)
     = Dyn.Normal (messagesToPrompt (filter known_role messages))).
Proof.
  split.
  - intros messages. unfold Dyn.messagesToPrompt.
    rewrite loop_known_roles.
    destruct (forallb _ messages); reflexivity.
  - intros messages. rewrite messagesToPrompt_of_message. f_equal.
    unfold messagesToPrompt. rewrite !collect_spec.
    cbn [systemParts promptParts].
    now rewrite system_texts_known, prompt_texts_known.
Qed.

(** ** The state of [Object.prototype] *)

Lemma Realm_get_untouched (o : list (jsstring * ClaudeModel))
      (key : jsstring) :
  Realm.get [] o key = Realm.standard (get o key).
Proof.
  unfold Realm.get, get. destruct (own_property o key); reflexivity.
Qed.

(** With nothing assigned to [Object.prototype], the embedding with the
    state is the one without it. *)
Lemma Realm_extractModel_untouched (model : jsstring) :
  Realm.extractModel [] model = Realm.standard (extractModel model).
Proof.
  unfold Realm.extractModel, extractModel. rewrite !Realm_get_untouched.
  cbn [Realm.ToBoolean].
  destruct (ToBoolean (get MODEL_MAP model)); [reflexivity|].
  cbv zeta.
  destruct (ToBoolean (get MODEL_MAP (replace_prefix provider_prefix model)));
    reflexivity.
Qed.

